(** * AntiHub: quota trend chart, container entrypoint and database init

    A shallow embedding of
      - [AntiHub/components/quota-trend-chart.tsx] (the [loadData] effect of
        [QuotaTrendChart]: fetch, hourly aggregation, zero filling),
      - the plugin's Docker entry point (generation of [/app/config.json]),
      - the Postgres init script creating the [antigravity] database,
    and of the ledger's [CheckAndReserve] as the specification describes it.

    Conventions of the embedding.
      - A JavaScript [number] holding a quota is an IEEE-754 binary64 value
        ([PrimFloat.float]); integer-valued numbers (time values, counters,
        loop indices) are [Z], exact below 2^53.
      - A [Date] is its time value in milliseconds since the epoch, [None]
        for an Invalid Date.  [Date.prototype.toISOString] is one-to-one on
        valid dates, so an ISO-8601 string is represented by the time value
        it denotes.
      - The host's time zone is its function [LocalTZA]: the offset of local
        time from UTC, in milliseconds, at a given instant or local time.
        The instants considered are of the years 100 and later, inside the
        range of [Date]. *)

From Stdlib Require Import ZArith QArith Floats Lia Ascii.
From stdpp Require Import gmap strings list sorting.

Open Scope Z_scope.

(** A filter that no element passes. *)
Lemma filter_none {A} (P : A -> Prop) `{forall x, Decision (P x)} (l : list A) :
  (forall x, x ∈ l -> ~ P x) -> filter P l = [].
Proof.
  induction l as [|x l IH]; intros Hl; [done |].
  rewrite filter_cons_False by (apply Hl; left).
  apply IH. intros y Hy. apply Hl. by right.
Qed.



(** ** JavaScript built-ins used by the component *)
Module Js.

(** A thrown value: an [Error] object with its message, or anything else. *)
Inductive thrown : Type :=
  | ErrorObject (message : string)
  | NonError.

Inductive result (A : Type) : Type :=
  | Ok (a : A)
  | Throw (e : thrown).
Arguments Ok {A} a.
Arguments Throw {A} e.

(** Sequencing: a thrown value skips the rest of the [try] block. *)
#[global] Instance result_bind : MBind result := fun A B k r =>
  match r with
  | Ok a => k a
  | Throw e => Throw e
  end.

#[global] Instance result_ret : MRet result := fun A a => Ok a.

(** [Date]: the time value, or [None] for an Invalid Date. *)
Definition Date : Type := option Z.

(** [toISOString] throws a RangeError on an Invalid Date. *)
Definition invalid_time_value : thrown := ErrorObject "Invalid time value".

Definition toISOString (d : Date) : result Z :=
  match d with
  | Some t => Ok t
  | None => Throw invalid_time_value
  end.

(** *** Numeric string literals

    A string is the sequence of bytes of its UTF-8 encoding. *)

(** StrWhiteSpaceChar, by the length of its encoding.  One byte: TAB, LF,
    VT, FF, CR and the space. *)
Definition is_white_space (c : ascii) : bool :=
  let n := Z.of_nat (nat_of_ascii c) in
  (n =? 32) || ((9 <=? n) && (n <=? 13)).

(** Two bytes: the no-break space U+00A0. *)
Definition is_white_space2 (c1 c2 : ascii) : bool :=
  (Z.of_nat (nat_of_ascii c1) =? 194) && (Z.of_nat (nat_of_ascii c2) =? 160).

(** Three bytes: U+1680, U+2000 to U+200A, the line and paragraph separators
    U+2028 and U+2029, U+202F, U+205F, U+3000 and the byte order mark
    U+FEFF. *)
Definition is_white_space3 (c1 c2 c3 : ascii) : bool :=
  let n1 := Z.of_nat (nat_of_ascii c1) in
  let n2 := Z.of_nat (nat_of_ascii c2) in
  let n3 := Z.of_nat (nat_of_ascii c3) in
  ((n1 =? 225) && (n2 =? 154) && (n3 =? 128))
  || ((n1 =? 226) && (n2 =? 128)
      && (((128 <=? n3) && (n3 <=? 138)) || (n3 =? 168) || (n3 =? 169)
          || (n3 =? 175)))
  || ((n1 =? 226) && (n2 =? 129) && (n3 =? 159))
  || ((n1 =? 227) && (n2 =? 128) && (n3 =? 128))
  || ((n1 =? 239) && (n2 =? 187) && (n3 =? 191)).

Fixpoint trim_start (s : string) : string :=
  match s with
  | String c1 rest1 =>
      if is_white_space c1 then trim_start rest1
      else
        match rest1 with
        | String c2 rest2 =>
            if is_white_space2 c1 c2 then trim_start rest2
            else
              match rest2 with
              | String c3 rest3 =>
                  if is_white_space3 c1 c2 c3 then trim_start rest3 else s
              | EmptyString => s
              end
        | EmptyString => s
        end
  | EmptyString => s
  end.

Definition digit_value (radix : Z) (c : ascii) : option Z :=
  let n := Z.of_nat (nat_of_ascii c) in
  let v :=
    if (48 <=? n) && (n <=? 57) then n - 48
    else if (97 <=? n) && (n <=? 122) then n - 87
    else if (65 <=? n) && (n <=? 90) then n - 55
    else 36 in
  if v <? radix then Some v else None.

(** The longest run of digits at the head of [s]: its value on top of [acc],
    the number of digits consumed on top of [n], and the remainder. *)
Fixpoint read_digits (radix : Z) (s : string) (acc n : Z) : Z * Z * string :=
  match s with
  | String c rest =>
      match digit_value radix c with
      | Some v => read_digits radix rest (acc * radix + v) (n + 1)
      | None => (acc, n, s)
      end
  | EmptyString => (acc, n, s)
  end.

(** An optional sign: [true] for a minus. *)
Definition read_sign (s : string) : bool * string :=
  match s with
  | String "-"%char rest => (true, rest)
  | String "+"%char rest => (false, rest)
  | _ => (false, s)
  end.

Fixpoint strip_prefix (p s : string) : option string :=
  match p, s with
  | EmptyString, _ => Some s
  | String a p', String b s' =>
      if Ascii.eqb a b then strip_prefix p' s' else None
  | String _ _, EmptyString => None
  end.

(** A parsed StrDecimalLiteral: the number [(-1)^neg * mant * 10^exp10]. *)
Inductive decimal : Type :=
  | DecFinite (neg : bool) (mant exp10 : Z)
  | DecInfinity (neg : bool)
  | DecNaN.

(** The exponent part [e[+-]digits], when one is well formed at the head of
    [s]; otherwise no exponent. *)
Definition read_exponent (s : string) : Z :=
  match s with
  | String c rest =>
      if Ascii.eqb c "e"%char || Ascii.eqb c "E"%char then
        let '(eneg, rest1) := read_sign rest in
        let '(e, n, _) := read_digits 10 rest1 0 0 in
        if 0 <? n then (if eneg then - e else e) else 0
      else 0
  | EmptyString => 0
  end.

(** The longest prefix of the trimmed string that is a StrDecimalLiteral. *)
Definition parseDecimal (s : string) : decimal :=
  let '(neg, s1) := read_sign (trim_start s) in
  match strip_prefix "Infinity" s1 with
  | Some _ => DecInfinity neg
  | None =>
      let '(ip, ni, s2) := read_digits 10 s1 0 0 in
      let '(m, nf, s3) :=
        match s2 with
        | String "."%char rest => read_digits 10 rest ip 0
        | _ => (ip, 0, s2)
        end in
      if 0 <? ni + nf
      then DecFinite neg m (read_exponent s3 - nf)
      else DecNaN
  end.

(** Binary64: 53 bits of precision, exponents below 1024. *)
Definition prec : Z := 53.
Definition emax : Z := 1024.

(** Round-to-nearest-even of [(-1)^neg * m * 10^e10].  For a negative decimal
    exponent the quotient is taken with 64 or more significant bits and a
    sticky bit for the remainder, so the final rounding sees the exact
    position of the value between two doubles. *)
Definition round_decimal (neg : bool) (m e10 : Z) : float :=
  let sign (z : Z) := if neg then - z else z in
  if 0 <=? e10 then
    SF2Prim (binary_normalize prec emax (sign (m * 10 ^ e10)) 0 neg)
  else
    let d := 10 ^ (- e10) in
    let s := Z.log2 d + 64 in
    let q := (m * 2 ^ s) / d in
    let r := (m * 2 ^ s) mod d in
    let mant := 2 * q + (if r =? 0 then 0 else 1) in
    SF2Prim (binary_normalize prec emax (sign mant) (- s - 1) neg).

Definition decimal_to_number (d : decimal) : float :=
  match d with
  | DecFinite neg m e10 => round_decimal neg m e10
  | DecInfinity neg => if neg then neg_infinity else infinity
  | DecNaN => nan
  end.

(** [parseFloat(string)]. *)
Definition parseFloat (s : string) : float :=
  decimal_to_number (parseDecimal s).

(** [parseInt(string)] with no radix argument: [None] is NaN. *)
Definition parseInt (s : string) : option Z :=
  let '(neg, s1) := read_sign (trim_start s) in
  let '(radix, s2) :=
    match strip_prefix "0x" s1, strip_prefix "0X" s1 with
    | Some rest, _ => (16, rest)
    | None, Some rest => (16, rest)
    | None, None => (10, s1)
    end in
  let '(v, n, _) := read_digits radix s2 0 0 in
  if 0 <? n then Some (if neg then - v else v) else None.

(** The exact rational a decimal literal denotes, when it is finite. *)
Definition decimal_to_Q (d : decimal) : option Q :=
  match d with
  | DecFinite neg m e10 =>
      let a := if neg then - m else m in
      Some (if 0 <=? e10
            then inject_Z (a * 10 ^ e10)
            else Qmake a (Z.to_pos (10 ^ (- e10))))
  | _ => None
  end.

(** The exact rational a finite double denotes. *)
Definition number_to_Q (x : float) : option Q :=
  match Prim2SF x with
  | S754_zero _ => Some 0%Q
  | S754_finite neg m e =>
      let a := if neg then Z.neg m else Z.pos m in
      Some (if 0 <=? e
            then inject_Z (a * 2 ^ e)
            else Qmake a (Z.to_pos (2 ^ (- e))))
  | _ => None
  end.

Example parseFloat_tenth : parseFloat "0.1" = 0x1.999999999999ap-4%float.
Proof. vm_compute. reflexivity. Qed.

Example parseFloat_prefix : parseFloat "  12.50abc" = 12.5%float.
Proof. vm_compute. reflexivity. Qed.

Example parseFloat_exponent : parseFloat "-25e-1" = (-2.5)%float.
Proof. vm_compute. reflexivity. Qed.

(** A no-break space and an ideographic space before the number. *)
Example parseFloat_unicode_space : parseFloat " 　1.5" = 1.5%float.
Proof. vm_compute. reflexivity. Qed.

Example parseFloat_not_a_number : parseFloat "abc" = nan.
Proof. vm_compute. reflexivity. Qed.

Example parseInt_hours :
  parseInt "24" = Some 24 /\ parseInt "48" = Some 48 /\ parseInt "168" = Some 168.
Proof. repeat split. Qed.

End Js.

(** ** [QuotaTrendChart]: the [loadData] effect *)
Module QuotaTrendChart.
Import Js.

(** A record of the consumption list, with the fields the chart reads.
    [consumed_at] is the Date that [new Date(record.consumed_at)] builds from
    the ISO-8601 string; [quota_consumed] is the decimal string as received. *)
Module QuotaConsumption.
Record t : Type := { consumed_at : Date; quota_consumed : string }.
End QuotaConsumption.

(** A value of the [hourlyData] map. *)
Module Hourly.
Record t : Type := { quota : float; count : Z }.
End Hourly.

Module TrendDataPoint.
Record t : Type := { time : Z; quota_consumed : float; count : Z }.
End TrendDataPoint.

(** The parameters of one call of [getQuotaConsumption]. *)
Module ConsumptionQuery.
Record t : Type := { limit : Z; start_date : Z; end_date : Z }.
End ConsumptionQuery.

(** [{ quota: 0, count: 0 }] *)
Definition noData : Hourly.t := {| Hourly.quota := 0%float; Hourly.count := 0 |}.

(** One hour in milliseconds. *)
Definition HOUR : Z := 60 * 60 * 1000.

(** The consumption API: the records a query resolves to, or the value its
    promise rejects with. *)
Definition Api : Type :=
  ConsumptionQuery.t -> result (list QuotaConsumption.t).

Section LocalTime.

(** [LocalTZA(t, isUTC)] of the host's time zone: the offset of local time
    from UTC at the instant [t] when [isUTC] is true, and at the local time
    value [t] when it is false.  A local time that a transition repeats or
    skips is read with the offset before the transition. *)
Variable LocalTZA : Z -> bool -> Z.

(** [LocalTime(t)], whose calendar fields the getters return. *)
Definition LocalTime (t : Z) : Z := t + LocalTZA t true.

(** [UTC(t)], which the Date constructor applies to the local time value its
    arguments denote. *)
Definition UTC (t : Z) : Z := t - LocalTZA t false.

(** The time value of
    [new Date(d.getFullYear(), d.getMonth(), d.getDate(), d.getHours())]:
    the year, month, day and hour of [LocalTime t], with minutes, seconds and
    milliseconds zero, denote the local time value [LocalTime t] rounded down
    to a whole hour, which [UTC] turns back into an instant. *)
Definition localHourStart (t : Z) : Z := UTC (LocalTime t / HOUR * HOUR).

(** The [hourKey] of a Date; an Invalid Date has NaN fields, which build an
    Invalid Date again, on which [toISOString] throws. *)
Definition hourKey (d : Date) : result Z :=
  toISOString (localHourStart <$> d).

(** The body of [consumptionData.forEach]. *)
Definition addRecord (hourlyData : gmap Z Hourly.t) (record : QuotaConsumption.t)
  : result (gmap Z Hourly.t) :=
  let date := QuotaConsumption.consumed_at record in
  hourKey ← hourKey date;
  let existing := default noData (hourlyData !! hourKey) in
  let existing :=
    {| Hourly.quota :=
         (Hourly.quota existing
          + parseFloat (QuotaConsumption.quota_consumed record))%float;
       Hourly.count := Hourly.count existing + 1 |} in
  Ok (<[hourKey := existing]> hourlyData).

Fixpoint forEach (consumptionData : list QuotaConsumption.t)
    (hourlyData : gmap Z Hourly.t) : result (gmap Z Hourly.t) :=
  match consumptionData with
  | [] => Ok hourlyData
  | record :: rest =>
      hourlyData ← addRecord hourlyData record;
      forEach rest hourlyData
  end.

(** The body of the [for] loop at index [i].  [time] is a valid Date, so its
    [toISOString] does not throw and the key is [localHourStart time]. *)
Definition chartPoint (hours now : Z) (hourlyData : gmap Z Hourly.t) (i : Z)
  : TrendDataPoint.t :=
  let time := now - (hours - i) * 60 * 60 * 1000 in
  let hourKey := localHourStart time in
  let data := default noData (hourlyData !! hourKey) in
  {| TrendDataPoint.time := hourKey;
     TrendDataPoint.quota_consumed := Hourly.quota data;
     TrendDataPoint.count := Hourly.count data |}.

(** [for (let i = 0; i < hours; i++) chartData.push(...)] *)
Definition chartData (hours now : Z) (hourlyData : gmap Z Hourly.t)
  : list TrendDataPoint.t :=
  chartPoint hours now hourlyData <$> seqZ 0 hours.

(** The aggregation of the fetched records: lines 68 to 93. *)
Definition aggregate (hours now : Z) (consumptionData : list QuotaConsumption.t)
  : result (list TrendDataPoint.t) :=
  hourlyData ← forEach consumptionData ∅;
  Ok (chartData hours now hourlyData).

(** The component's state. *)
Record State : Type := {
  timeRange : string;
  data : list TrendDataPoint.t;
  isLoading : bool;
  error : option string
}.

Definition initialState : State :=
  {| timeRange := "24"; data := []; isLoading := true; error := None |}.

Definition setTimeRange (v : string) (s : State) : State :=
  {| timeRange := v; data := data s;
     isLoading := isLoading s; error := error s |}.

Definition setData (v : list TrendDataPoint.t) (s : State) : State :=
  {| timeRange := timeRange s; data := v;
     isLoading := isLoading s; error := error s |}.

Definition setIsLoading (v : bool) (s : State) : State :=
  {| timeRange := timeRange s; data := data s;
     isLoading := v; error := error s |}.

Definition setError (v : option string) (s : State) : State :=
  {| timeRange := timeRange s; data := data s;
     isLoading := isLoading s; error := v |}.

Definition loadFailedText : string := "加载趋势数据失败".

(** The [try] block: its outcome and the queries it sent.  With NaN hours
    [startTime] is an Invalid Date and [startTime.toISOString()] throws while
    the argument of the call is built, before any query is sent. *)
Definition tryBlock (getQuotaConsumption : Api) (now : Z) (timeRange : string)
  : result (list TrendDataPoint.t) * list ConsumptionQuery.t :=
  match parseInt timeRange with
  | None => (Throw invalid_time_value, [])
  | Some hours =>
      let startTime := now - hours * 60 * 60 * 1000 in
      let query :=
        {| ConsumptionQuery.limit := 1000;
           ConsumptionQuery.start_date := startTime;
           ConsumptionQuery.end_date := now |} in
      (consumptionData ← getQuotaConsumption query;
       aggregate hours now consumptionData,
       [query])
  end.

(** [loadData]: the state once the returned promise settles, and the queries
    sent meanwhile.  [now] is the value of [new Date()]. *)
Definition loadData (getQuotaConsumption : Api) (now : Z) (s : State)
  : State * list ConsumptionQuery.t :=
  let s := setError None (setIsLoading true s) in
  let '(outcome, sent) := tryBlock getQuotaConsumption now (timeRange s) in
  let s :=
    match outcome with
    | Ok chartData => setData chartData s
    | Throw (ErrorObject message) => setError (Some message) s
    | Throw NonError => setError (Some loadFailedText) s
    end in
  (setIsLoading false s, sent).

(** *** Notions the properties are stated with *)

(** The record was consumed in the hour starting at [bucket_start]. *)
Definition inBucket (bucket_start : Z) (record : QuotaConsumption.t) : Prop :=
  match QuotaConsumption.consumed_at record with
  | Some t => bucket_start <= t < bucket_start + HOUR
  | None => False
  end.

#[global] Instance inBucket_dec k r : Decision (inBucket k r).
Proof. unfold inBucket. destruct (QuotaConsumption.consumed_at r); apply _. Defined.

(** The record was consumed in [[lo, hi)]. *)
Definition inRange (lo hi : Z) (record : QuotaConsumption.t) : Prop :=
  match QuotaConsumption.consumed_at record with
  | Some t => lo <= t < hi
  | None => False
  end.

#[global] Instance inRange_dec lo hi r : Decision (inRange lo hi r).
Proof. unfold inRange. destruct (QuotaConsumption.consumed_at r); apply _. Defined.

(** [acc + parseFloat(record.quota_consumed)] *)
Definition addQuota (acc : float) (r : QuotaConsumption.t) : float :=
  (acc + parseFloat (QuotaConsumption.quota_consumed r))%float.

(** The double-precision sum [((0 + x1) + x2) + ...] of the parsed amounts,
    in the order of the list. *)
Definition quotaSum (records : list QuotaConsumption.t) : float :=
  foldl addQuota 0%float records.

(** [consumed_at] parsed to a valid Date. *)
Definition validDate (record : QuotaConsumption.t) : Prop :=
  is_Some (QuotaConsumption.consumed_at record).

(** The start of the hour of [t] on a clock that is always [tz] milliseconds
    ahead of UTC. *)
Definition hourFloor (tz t : Z) : Z := (t + tz) / HOUR * HOUR - tz.

(** The instant is the start of an hour of such a clock. *)
Definition hourAligned (tz t : Z) : Prop := (t + tz) mod HOUR = 0.

(** At the instant [t] the zone's offset is [tz], and the start of the local
    hour of [t] is read with that offset too: no transition between the
    two. *)
Definition offsetIs (tz t : Z) : Prop :=
  LocalTZA t true = tz /\ LocalTZA ((t + tz) / HOUR * HOUR) false = tz.


(** The offset is [tz] at the instant of every record. *)
Definition steadyRecords (tz : Z) (records : list QuotaConsumption.t) : Prop :=
  Forall (fun r => forall t, QuotaConsumption.consumed_at r = Some t ->
                             offsetIs tz t) records.



(** The record's [hourKey] is the ISO string of the instant [k]. *)
Definition hasKey (k : Z) (r : QuotaConsumption.t) : Prop :=
  localHourStart <$> QuotaConsumption.consumed_at r = Some k.

#[global] Instance hasKey_dec k r : Decision (hasKey k r).
Proof. unfold hasKey. apply _. Defined.

(** The exact sum of the decimal amounts, when every amount is a finite
    decimal literal. *)
Definition exactAmount (r : QuotaConsumption.t) : option Q :=
  decimal_to_Q (parseDecimal (QuotaConsumption.quota_consumed r)).

Fixpoint exactSum (records : list QuotaConsumption.t) : option Q :=
  match records with
  | [] => Some 0%Q
  | r :: rest =>
      a ← exactAmount r; b ← exactSum rest; Some (a + b)%Q
  end.

(** The number [x] is the exact sum of the decimal amounts of [records]. *)
Definition sumIsExact (x : float) (records : list QuotaConsumption.t) : Prop :=
  match number_to_Q x, exactSum records with
  | Some a, Some b => (a == b)%Q
  | _, _ => False
  end.

(** The query of a load over [hours] hours ending at [now]. *)
Definition queryFor (hours now : Z) : ConsumptionQuery.t :=
  {| ConsumptionQuery.limit := 1000;
     ConsumptionQuery.start_date := now - hours * 3600000;
     ConsumptionQuery.end_date := now |}.

(** What [catch] stores for a thrown value. *)
Definition errorText (e : thrown) : string :=
  match e with
  | ErrorObject message => message
  | NonError => loadFailedText
  end.

(** The sum of the [count] fields of a series. *)
Definition totalCount (pts : list TrendDataPoint.t) : Z :=
  foldr (fun p acc => TrendDataPoint.count p + acc) 0 pts.

(** The bucket start and the count of each point. *)
Definition counts (pts : list TrendDataPoint.t) : list (Z * Z) :=
  (fun p => (TrendDataPoint.time p, TrendDataPoint.count p)) <$> pts.

(** *** Hours of a clock with a constant offset *)

Lemma HOUR_pos : 0 < HOUR.
Proof. reflexivity. Qed.

Lemma hourFloor_bounds tz t : hourFloor tz t <= t < hourFloor tz t + HOUR.
Proof.
  unfold hourFloor.
  pose proof (Z.div_mod (t + tz) HOUR ltac:(discriminate)) as Hdm.
  pose proof (Z.mod_pos_bound (t + tz) HOUR HOUR_pos) as Hb.
  lia.
Qed.

Lemma hourFloor_aligned tz t : hourAligned tz (hourFloor tz t).
Proof.
  unfold hourAligned, hourFloor.
  replace ((t + tz) / HOUR * HOUR - tz + tz) with ((t + tz) / HOUR * HOUR) by lia.
  apply Z.mod_mul. discriminate.
Qed.








(** *** The start of the local hour *)

(** Where the offset does not change, the start of the local hour is that of
    a clock with this offset. *)
Lemma localHourStart_steady tz t :
  offsetIs tz t -> localHourStart t = hourFloor tz t.
Proof.
  intros [Hutc Hlocal]. unfold localHourStart, UTC, LocalTime, hourFloor.
  by rewrite Hutc, Hlocal.
Qed.

Lemma hourKey_valid t : hourKey (Some t) = Ok (localHourStart t).
Proof. reflexivity. Qed.




(** *** The [forEach] pass over the fetched records *)

Lemma addRecord_valid m r t :
  QuotaConsumption.consumed_at r = Some t ->
  addRecord m r =
  Ok (<[localHourStart t :=
         {| Hourly.quota :=
              addQuota (Hourly.quota (default noData (m !! localHourStart t))) r;
            Hourly.count :=
              Hourly.count (default noData (m !! localHourStart t)) + 1 |}]> m).
Proof. intros Ht. unfold addRecord, hourKey. rewrite Ht. reflexivity. Qed.

Lemma addRecord_invalid m r :
  QuotaConsumption.consumed_at r = None ->
  addRecord m r = Throw invalid_time_value.
Proof. intros Ht. unfold addRecord, hourKey. rewrite Ht. reflexivity. Qed.

Lemma forEach_total (rs : list QuotaConsumption.t) :
  Forall validDate rs -> forall m0, exists m, forEach rs m0 = Ok m.
Proof.
  induction 1 as [|r rs [t Ht] _ IH]; intros m0; simpl.
  - by exists m0.
  - rewrite (addRecord_valid _ _ _ Ht). apply IH.
Qed.

Lemma forEach_throws rs :
  Exists (fun r => QuotaConsumption.consumed_at r = None) rs ->
  forall m0, forEach rs m0 = Throw invalid_time_value.
Proof.
  induction rs as [|r rs IH]; intros Hex m0; [by inversion Hex |].
  simpl. destruct (QuotaConsumption.consumed_at r) as [t|] eqn:Ht.
  - rewrite (addRecord_valid _ _ _ Ht). apply IH.
    inversion Hex as [? ? Hr|]; [congruence | done].
  - by rewrite (addRecord_invalid _ _ Ht).
Qed.

(** After the pass, the entry under each key holds the running sum and the
    number of the records with that key, on top of what it held before. *)
Lemma forEach_lookup rs : forall m0 m,
  forEach rs m0 = Ok m ->
  forall k,
    Hourly.quota (default noData (m !! k)) =
      foldl addQuota (Hourly.quota (default noData (m0 !! k)))
            (filter (hasKey k) rs) /\
    Hourly.count (default noData (m !! k)) =
      Hourly.count (default noData (m0 !! k))
      + Z.of_nat (length (filter (hasKey k) rs)).
Proof.
  induction rs as [|r rs IH]; intros m0 m Hrun k.
  - injection Hrun as <-. simpl. split; [done | lia].
  - simpl in Hrun.
    destruct (QuotaConsumption.consumed_at r) as [t|] eqn:Ht.
    + rewrite (addRecord_valid _ _ _ Ht) in Hrun.
      destruct (IH _ _ Hrun k) as [Hq Hc]. rewrite Hq, Hc.
      destruct (decide (localHourStart t = k)) as [<-|Hne].
      * rewrite filter_cons_True by (unfold hasKey; by rewrite Ht).
        rewrite lookup_insert_eq. simpl. split; [done | lia].
      * rewrite filter_cons_False
          by (unfold hasKey; rewrite Ht; simpl; congruence).
        by rewrite lookup_insert_ne.
    + by rewrite (addRecord_invalid _ _ Ht) in Hrun.
Qed.

(** A key with no record keeps no entry. *)
Lemma forEach_lookup_None rs : forall m0 m,
  forEach rs m0 = Ok m ->
  forall k, m !! k = None <-> m0 !! k = None /\ filter (hasKey k) rs = [].
Proof.
  induction rs as [|r rs IH]; intros m0 m Hrun k.
  - injection Hrun as <-. rewrite filter_nil. tauto.
  - simpl in Hrun.
    destruct (QuotaConsumption.consumed_at r) as [t|] eqn:Ht.
    + rewrite (addRecord_valid _ _ _ Ht) in Hrun.
      rewrite (IH _ _ Hrun k).
      destruct (decide (localHourStart t = k)) as [<-|Hne].
      * rewrite filter_cons_True by (unfold hasKey; by rewrite Ht).
        rewrite lookup_insert_eq. split; intros [? ?]; done.
      * rewrite filter_cons_False
          by (unfold hasKey; rewrite Ht; simpl; congruence).
        by rewrite lookup_insert_ne.
    + by rewrite (addRecord_invalid _ _ Ht) in Hrun.
Qed.

(** *** The zero-filling loop *)

Lemma chartData_length hours now m :
  length (chartData hours now m) = Z.to_nat hours.
Proof. unfold chartData. by rewrite length_fmap, length_seqZ. Qed.


Lemma elem_of_chartData hours now m p :
  p ∈ chartData hours now m <->
  exists i, 0 <= i < hours /\ p = chartPoint hours now m i.
Proof.
  unfold chartData. rewrite list_elem_of_fmap. split.
  - intros (i & -> & Hi%elem_of_seqZ). exists i. split; [lia | done].
  - intros (i & Hi & ->). exists i. split; [done |]. apply elem_of_seqZ. lia.
Qed.

(** The totals of a point are those of the records with its key. *)
Lemma chartPoint_totals hours now rs m i :
  forEach rs ∅ = Ok m ->
  let p := chartPoint hours now m i in
  TrendDataPoint.quota_consumed p =
    quotaSum (filter (hasKey (TrendDataPoint.time p)) rs) /\
  TrendDataPoint.count p =
    Z.of_nat (length (filter (hasKey (TrendDataPoint.time p)) rs)).
Proof.
  intros Hrun. cbv zeta.
  set (k := TrendDataPoint.time (chartPoint hours now m i)).
  destruct (forEach_lookup rs _ _ Hrun k) as [Hq Hc].
  rewrite lookup_empty in Hq, Hc.
  split; [exact Hq | exact Hc].
Qed.

(** A point is determined by the records with its key. *)
Lemma chartPoint_record hours now rs m i :
  forEach rs ∅ = Ok m ->
  chartPoint hours now m i =
  let k := localHourStart (now - (hours - i) * 60 * 60 * 1000) in
  {| TrendDataPoint.time := k;
     TrendDataPoint.quota_consumed := quotaSum (filter (hasKey k) rs);
     TrendDataPoint.count := Z.of_nat (length (filter (hasKey k) rs)) |}.
Proof.
  intros Hm. cbv zeta.
  destruct (chartPoint_totals hours now rs m i Hm) as [Hq Hc].
  assert (Ht : TrendDataPoint.time (chartPoint hours now m i)
               = localHourStart (now - (hours - i) * 60 * 60 * 1000))
    by reflexivity.
  rewrite Ht in Hq, Hc.
  destruct (chartPoint hours now m i) as [t q c]. simpl in *.
  by rewrite Ht, Hq, Hc.
Qed.



Lemma aggregate_valid hours now rs :
  Forall validDate rs ->
  exists m, forEach rs ∅ = Ok m /\
            aggregate hours now rs = Ok (chartData hours now m).
Proof.
  intros Hv. destruct (forEach_total rs Hv ∅) as [m Hm].
  exists m. split; [done |]. unfold aggregate. by rewrite Hm.
Qed.

Lemma aggregate_Ok hours now rs pts :
  aggregate hours now rs = Ok pts ->
  exists m, forEach rs ∅ = Ok m /\ pts = chartData hours now m.
Proof.
  unfold aggregate. destruct (forEach rs ∅) as [m|e]; simpl; [|done].
  intros [= <-]. by exists m.
Qed.




Lemma quotaSum_fmap (l : list QuotaConsumption.t) : forall acc,
  foldl addQuota acc l =
  foldl (fun a s => (a + decimal_to_number (parseDecimal s))%float) acc
        (QuotaConsumption.quota_consumed <$> l).
Proof. induction l as [|r l IH]; intros acc; [done | apply IH]. Qed.

(** *** Properties of the aggregation *)

(** C2 (amended): for every list of fetched records with parsable dates the
    aggregation succeeds; the key of a record is the start of the local clock
    hour of its [consumed_at], which is [consumed_at] rounded down to the
    hour wherever the zone's offset does not change between the two; the
    record is counted in an emitted bucket exactly when the bucket has this
    key, and the bucket's [quota_consumed] is the sum of the parsed amounts
    of the records with its key while its [count] is their number. *)
Theorem emitted_bucket_totals hours now (records : list QuotaConsumption.t) :
  Forall validDate records ->
  exists pts,
    aggregate hours now records = Ok pts /\
    (forall r t,
       r ∈ records -> QuotaConsumption.consumed_at r = Some t ->
       hourKey (QuotaConsumption.consumed_at r) = Ok (localHourStart t) /\
       (forall tz, offsetIs tz t ->
          localHourStart t = (t + tz) / HOUR * HOUR - tz /\
          hourAligned tz (localHourStart t) /\
          localHourStart t <= t < localHourStart t + HOUR) /\
       forall p, p ∈ pts ->
         (hasKey (TrendDataPoint.time p) r <->
          TrendDataPoint.time p = localHourStart t)) /\
    (forall p, p ∈ pts ->
       TrendDataPoint.quota_consumed p =
         quotaSum (filter (hasKey (TrendDataPoint.time p)) records) /\
       TrendDataPoint.count p =
         Z.of_nat (length (filter (hasKey (TrendDataPoint.time p)) records))).
Proof.
  intros Hvalid.
  destruct (aggregate_valid hours now records Hvalid) as (m & Hm & Hagg).
  exists (chartData hours now m). split; [exact Hagg |]. split.
  - intros r t _ Ht. rewrite Ht. split; [apply hourKey_valid |]. split.
    + intros tz Hsteady. rewrite (localHourStart_steady tz t Hsteady).
      split; [reflexivity |].
      split; [apply hourFloor_aligned | apply hourFloor_bounds].
    + intros p _. unfold hasKey. rewrite Ht. simpl.
      split; [by intros [= ->] | by intros ->].
  - intros p (i & _ & ->)%elem_of_chartData.
    by apply chartPoint_totals.
Qed.




(** C5 (amended): each amount is the decimal string converted to binary64 by
    [parseFloat], and the [quota_consumed] of an emitted bucket is the
    binary64 sum, accumulated from 0 in the order fetched, of the converted
    amounts of the records with the bucket's key. *)
Theorem bucket_sum_is_double_sum hours now (records : list QuotaConsumption.t) :
  Forall validDate records ->
  exists pts,
    aggregate hours now records = Ok pts /\
    forall p, p ∈ pts ->
      TrendDataPoint.quota_consumed p =
      foldl (fun acc s => (acc + decimal_to_number (parseDecimal s))%float)
            0%float
            (QuotaConsumption.quota_consumed
               <$> filter (hasKey (TrendDataPoint.time p)) records).
Proof.
  intros Hvalid.
  destruct (aggregate_valid hours now records Hvalid) as (m & Hm & Hagg).
  exists (chartData hours now m). split; [exact Hagg |].
  intros p (i & _ & ->)%elem_of_chartData.
  destruct (chartPoint_totals hours now records m i Hm) as [Hq _].
  rewrite Hq. apply quotaSum_fmap.
Qed.

(** *** Properties of [loadData] *)

Lemma tryBlock_hours (api : Api) now range hours :
  parseInt range = Some hours ->
  tryBlock api now range =
  (consumptionData ← api (queryFor hours now);
   aggregate hours now consumptionData,
   [queryFor hours now]).
Proof.
  intros Hp. unfold tryBlock. rewrite Hp. unfold queryFor.
  replace (now - hours * 60 * 60 * 1000) with (now - hours * 3600000) by lia.
  reflexivity.
Qed.

Lemma loadData_hours (api : Api) now s hours :
  parseInt (timeRange s) = Some hours ->
  loadData api now s =
  (let s1 := setError None (setIsLoading true s) in
   setIsLoading false
     match consumptionData ← api (queryFor hours now);
           aggregate hours now consumptionData with
     | Ok chartData => setData chartData s1
     | Throw e => setError (Some (errorText e)) s1
     end,
   [queryFor hours now]).
Proof.
  intros Hp. unfold loadData. cbn [timeRange setError setIsLoading].
  rewrite (tryBlock_hours api now _ hours Hp). cbv zeta.
  destruct (_ ≫= _) as [pts | [msg |]]; reflexivity.
Qed.

Lemma loadData_not_loading (api : Api) now s :
  isLoading (loadData api now s).1 = false.
Proof. unfold loadData. destruct (tryBlock _ _ _). reflexivity. Qed.


(** C10 (amended): when the consumption call rejects, the error state holds
    the message of the thrown Error, or the default text for any other thrown
    value; the trend data is left as it was, which on the first load is the
    empty list; and the loading flag is false once [loadData] has completed,
    whether it failed or not. *)
Theorem loadData_failure (api : Api) now s hours e :
  parseInt (timeRange s) = Some hours ->
  api (queryFor hours now) = Throw e ->
  error (loadData api now s).1 =
    Some match e with
         | ErrorObject message => message
         | NonError => "加载趋势数据失败"
         end /\
  data (loadData api now s).1 = data s /\
  (data s = [] -> data (loadData api now s).1 = []) /\
  isLoading (loadData api now s).1 = false /\
  (forall (api' : Api) now' s', isLoading (loadData api' now' s').1 = false).
Proof.
  intros Hp Hapi.
  assert (Hdata : data (loadData api now s).1 = data s).
  { rewrite (loadData_hours api now s hours Hp). cbn [fst]. by rewrite Hapi. }
  split; [| split; [| split; [| split]]].
  - rewrite (loadData_hours api now s hours Hp). cbn [fst]. rewrite Hapi.
    by destruct e.
  - exact Hdata.
  - intros Hempty. by rewrite Hdata.
  - apply loadData_not_loading.
  - intros. apply loadData_not_loading.
Qed.

End LocalTime.

(** *** Time zones *)

(** A zone whose offset is always [tz]. *)
Definition fixedZone (tz : Z) : Z -> bool -> Z := fun _ _ => tz.

Definition utc : Z -> bool -> Z := fixedZone 0.


(** 2025-11-02T06:00:00Z, when daylight saving time ends in New York. *)
Definition fallBack : Z := 1762063200000.

(** America/New_York around that day: four hours behind UTC until the
    transition, five from then on.  The local times from 01:00 to 02:00 occur
    twice and are read with the offset before the transition. *)
Definition newYork (t : Z) (isUTC : bool) : Z :=
  if isUTC
  then (if t <? fallBack then -4 * HOUR else -5 * HOUR)
  else (if t <? fallBack - 4 * HOUR then -4 * HOUR else -5 * HOUR).

(** The two hours from 05:00Z to 07:00Z both show 01:00 on the local clock
    and have the hour key 05:00Z. *)
Example newYork_repeated_hour :
  localHourStart newYork 1762062300000 = 1762059600000 /\
  localHourStart newYork 1762064100000 = 1762059600000 /\
  localHourStart newYork 1762068600000 = 1762066800000.
Proof. repeat split. Qed.

(** *** Concrete runs *)

Definition consumption (t : Z) (amount : string) : QuotaConsumption.t :=
  {| QuotaConsumption.consumed_at := Some t;
     QuotaConsumption.quota_consumed := amount |}.

(** 2026-01-01T00:30:00.000Z. *)
Definition sampleNow : Z := 1767227400000.

(** Two records at 2025-12-31T22:26:40Z and one at 2025-12-31T23:40:00Z. *)
Definition sampleRecords : list QuotaConsumption.t :=
  [ consumption 1767220000000 "0.5";
    consumption 1767224400000 "1.25";
    consumption 1767220000000 "2" ].

Definition samplePoints : list TrendDataPoint.t :=
  [ {| TrendDataPoint.time := 1767214800000;
       TrendDataPoint.quota_consumed := 0%float;
       TrendDataPoint.count := 0 |};
    {| TrendDataPoint.time := 1767218400000;
       TrendDataPoint.quota_consumed := 2.5%float;
       TrendDataPoint.count := 2 |};
    {| TrendDataPoint.time := 1767222000000;
       TrendDataPoint.quota_consumed := 1.25%float;
       TrendDataPoint.count := 1 |} ].

Example aggregate_sample :
  aggregate utc 3 sampleNow sampleRecords = Ok samplePoints.
Proof. vm_compute. reflexivity. Qed.

(** A record with an unparsable date makes [toISOString] throw. *)
Example aggregate_invalid_date :
  aggregate utc 3 sampleNow
    [ consumption 1767220000000 "0.5";
      {| QuotaConsumption.consumed_at := None;
         QuotaConsumption.quota_consumed := "1" |} ]
  = Throw (ErrorObject "Invalid time value").
Proof. vm_compute. reflexivity. Qed.

Lemma sampleRecords_valid : Forall validDate sampleRecords.
Proof. repeat constructor; by eexists. Defined.

(** Two records of the requested two hours before 07:30Z on the day of the
    transition, at 05:45Z and at 06:15Z. *)
Definition fallBackRecords : list QuotaConsumption.t :=
  [ consumption 1762062300000 "1"; consumption 1762064100000 "2" ].

Definition repeatedPoint : TrendDataPoint.t :=
  {| TrendDataPoint.time := 1762059600000;
     TrendDataPoint.quota_consumed := 3%float;
     TrendDataPoint.count := 2 |}.

Lemma emitted_bucket_totals_witness :
  Forall validDate sampleRecords /\
  exists pts,
    aggregate utc 3 sampleNow sampleRecords = Ok pts /\
    (forall r t,
       r ∈ sampleRecords -> QuotaConsumption.consumed_at r = Some t ->
       hourKey utc (QuotaConsumption.consumed_at r) = Ok (localHourStart utc t) /\
       (forall tz, offsetIs utc tz t ->
          localHourStart utc t = (t + tz) / HOUR * HOUR - tz /\
          hourAligned tz (localHourStart utc t) /\
          localHourStart utc t <= t < localHourStart utc t + HOUR) /\
       forall p, p ∈ pts ->
         (hasKey utc (TrendDataPoint.time p) r <->
          TrendDataPoint.time p = localHourStart utc t)) /\
    (forall p, p ∈ pts ->
       TrendDataPoint.quota_consumed p =
         quotaSum (filter (hasKey utc (TrendDataPoint.time p)) sampleRecords) /\
       TrendDataPoint.count p =
         Z.of_nat
           (length (filter (hasKey utc (TrendDataPoint.time p)) sampleRecords))).
Proof.
  split; [exact sampleRecords_valid |].
  apply (emitted_bucket_totals utc 3 sampleNow sampleRecords).
  exact sampleRecords_valid.
Defined.

(** The claim that a record is assigned to the bucket obtained by rounding
    [consumed_at] down to the hour, and that a bucket counts the records so
    assigned, fails in New York on the day daylight saving time ends: the
    record of 06:15Z has the key 05:00Z, which is not its hour, and the
    bucket of 05:00Z, emitted twice, counts both records though one of them
    only was consumed from 05:00Z to 06:00Z. *)
Lemma fall_back_merges_hours :
  Forall (inRange (1762068600000 - 2 * HOUR) 1762068600000) fallBackRecords /\
  hourKey newYork (Some 1762064100000) = Ok 1762059600000 /\
  ~ (1762059600000 <= 1762064100000 < 1762059600000 + HOUR) /\
  aggregate newYork 2 1762068600000 fallBackRecords
    = Ok [repeatedPoint; repeatedPoint] /\
  length (filter (inBucket 1762059600000) fallBackRecords) = 1%nat.
Proof.
  split; [repeat constructor; compute_done |].
  split; [reflexivity |].
  split; [unfold HOUR; lia |].
  split; [vm_compute; reflexivity | reflexivity].
Qed.




(** With no record at all, a window of 24 hours gives 24 zero points. *)
Example aggregate_no_records :
  exists pts,
    aggregate utc 24 sampleNow [] = Ok pts /\
    length pts = 24%nat /\
    Forall (fun p => TrendDataPoint.quota_consumed p = 0%float /\
                     TrendDataPoint.count p = 0) pts.
Proof.
  eexists. split; [vm_compute; reflexivity |].
  split; [reflexivity | repeat constructor].
Qed.


(** A window of ten hours ending at 00:30 starts its first bucket at 14:00;
    the records fall in the hours of index 2 (16:00) and 5 (19:00). *)
Definition tenHourRecords : list QuotaConsumption.t :=
  [ consumption 1767197400000 "0.75";
    consumption 1767211199999 "3";
    consumption 1767207600000 "0.25" ].

Example aggregate_ten_hours :
  match aggregate utc 10 sampleNow tenHourRecords with
  | Ok pts =>
      (fun p => (TrendDataPoint.quota_consumed p, TrendDataPoint.count p))
        <$> pts
  | Throw _ => []
  end
  = [ (0%float, 0); (0%float, 0); (0.75%float, 1); (0%float, 0);
      (0%float, 0); (3.25%float, 2); (0%float, 0); (0%float, 0);
      (0%float, 0); (0%float, 0) ].
Proof. vm_compute. reflexivity. Qed.





Lemma bucket_sum_is_double_sum_witness :
  Forall validDate sampleRecords /\
  exists pts,
    aggregate utc 3 sampleNow sampleRecords = Ok pts /\
    forall p, p ∈ pts ->
      TrendDataPoint.quota_consumed p =
      foldl (fun acc s => (acc + decimal_to_number (parseDecimal s))%float)
            0%float
            (QuotaConsumption.quota_consumed
               <$> filter (hasKey utc (TrendDataPoint.time p)) sampleRecords).
Proof.
  split; [exact sampleRecords_valid |].
  apply (bucket_sum_is_double_sum utc 3 sampleNow sampleRecords).
  exact sampleRecords_valid.
Defined.

(** Two records of 0.1 and 0.2 consumed at 23:40, in the window of one hour
    ending at 00:30. *)
Definition driftRecords : list QuotaConsumption.t :=
  [ consumption 1767224400000 "0.1"; consumption 1767224400000 "0.2" ].

(** The claim that a bucket's [quota_consumed] is the exact decimal sum of
    its amounts fails: for 0.1 and 0.2 the emitted number is
    0.3000000000000000444..., neither 3/10 nor the double nearest to it. *)
Lemma double_sum_not_exact :
  exists p,
    aggregate utc 1 sampleNow driftRecords = Ok [p] /\
    filter (hasKey utc (TrendDataPoint.time p)) driftRecords = driftRecords /\
    (exists q, exactSum driftRecords = Some q /\ (q == 3 # 10)%Q) /\
    number_to_Q (TrendDataPoint.quota_consumed p)
      = Some (5404319552844596 # 18014398509481984)%Q /\
    ~ sumIsExact (TrendDataPoint.quota_consumed p) driftRecords /\
    TrendDataPoint.quota_consumed p <> parseFloat "0.3".
Proof.
  eexists. split; [vm_compute; reflexivity |].
  split; [vm_compute; reflexivity |].
  split; [eexists; split; [vm_compute; reflexivity | reflexivity] |].
  split; [vm_compute; reflexivity |]. split.
  - unfold sumIsExact. intros H. vm_compute in H. discriminate H.
  - intros H. apply (f_equal Prim2SF) in H. vm_compute in H. discriminate H.
Qed.

Definition sampleApi : Api := fun _ => Ok sampleRecords.

Definition failingApi : Api := fun _ => Throw (ErrorObject "Network Error").


Lemma loadData_failure_witness :
  parseInt (timeRange initialState) = Some 24 /\
  failingApi (queryFor 24 sampleNow) = Throw (ErrorObject "Network Error") /\
  error (loadData utc failingApi sampleNow initialState).1
    = Some "Network Error" /\
  data (loadData utc failingApi sampleNow initialState).1 = data initialState /\
  (data initialState = [] ->
   data (loadData utc failingApi sampleNow initialState).1 = []) /\
  isLoading (loadData utc failingApi sampleNow initialState).1 = false /\
  (forall (api' : Api) now' s',
     isLoading (loadData utc api' now' s').1 = false).
Proof.
  split; [reflexivity |]. split; [reflexivity |].
  apply (loadData_failure utc failingApi sampleNow initialState 24
           (ErrorObject "Network Error")); reflexivity.
Defined.

(** A rejection with a value that is no Error shows the default text. *)
Example loadData_non_error :
  error (loadData utc (fun _ => Throw NonError) sampleNow initialState).1
  = Some "加载趋势数据失败".
Proof. reflexivity. Qed.

(** The claim that the trend data is the empty list after a failed load
    fails on a reload: the first load, over 24 hours, succeeds; the range is
    then set to 48 hours and the call rejects; the 24 points of the first
    load are still the trend data. *)
Lemma failed_reload_keeps_series :
  let loaded := (loadData utc sampleApi sampleNow initialState).1 in
  let reload := setTimeRange "48" loaded in
  parseInt (timeRange reload) = Some 48 /\
  failingApi (queryFor 48 1767227460000) = Throw (ErrorObject "Network Error") /\
  error (loadData utc failingApi 1767227460000 reload).1 = Some "Network Error" /\
  length (data (loadData utc failingApi 1767227460000 reload).1) = 24%nat /\
  data (loadData utc failingApi 1767227460000 reload).1 <> [].
Proof.
  cbv zeta. split; [reflexivity |]. split; [reflexivity |].
  split; [reflexivity |]. split; [vm_compute; reflexivity |].
  intros H. apply (f_equal length) in H. vm_compute in H. discriminate H.
Qed.

(** *** What the component renders, and further properties of the series *)

(** The three cards the component can return: the skeleton, the error card
    with its text, and the chart with the selected range and the series. *)
Inductive View : Type :=
  | SkeletonCard
  | ErrorCard (message : string)
  | ChartCard (range : string) (series : list TrendDataPoint.t).

(** The body of the component after its hooks.  [if (error)] is false for
    [null] and for the empty string. *)
Definition render (s : State) : View :=
  if isLoading s then SkeletonCard
  else
    match error s with
    | Some (String c rest) => ErrorCard (String c rest)
    | Some EmptyString | None => ChartCard (timeRange s) (data s)
    end.

Section Series.

Variable LocalTZA : Z -> bool -> Z.









(** X1: A load that succeeds renders the chart with the new series, whatever
    error or series the state held before. *)
Theorem render_after_success (api : Api) now s hours records :
  parseInt (timeRange s) = Some hours ->
  api (queryFor hours now) = Ok records ->
  Forall validDate records ->
  exists pts,
    aggregate LocalTZA hours now records = Ok pts /\
    length pts = Z.to_nat hours /\
    error (loadData LocalTZA api now s).1 = None /\
    render (loadData LocalTZA api now s).1 = ChartCard (timeRange s) pts.
Proof.
  intros Hp Hapi Hvalid.
  destruct (aggregate_valid LocalTZA hours now records Hvalid) as (m & _ & Hagg).
  exists (chartData LocalTZA hours now m).
  split; [exact Hagg |]. split; [apply chartData_length |].
  rewrite (loadData_hours LocalTZA api now s hours Hp). cbn [fst].
  rewrite Hapi. simpl. rewrite Hagg. done.
Qed.

(** X2: A load whose call rejects renders the error card with the stored text,
    hiding any earlier series; but when the thrown Error has an empty message
    the chart with the earlier series is rendered, and no error card. *)
Theorem render_after_failure (api : Api) now s hours e :
  parseInt (timeRange s) = Some hours ->
  api (queryFor hours now) = Throw e ->
  render (loadData LocalTZA api now s).1 =
  match errorText e with
  | EmptyString => ChartCard (timeRange s) (data s)
  | message => ErrorCard message
  end.
Proof.
  intros Hp Hapi.
  rewrite (loadData_hours LocalTZA api now s hours Hp). cbn [fst].
  rewrite Hapi. simpl. unfold render. simpl.
  by destruct (errorText e).
Qed.

(** X3: One record with an unparsable [consumed_at] fails the whole load, after
    its single query: the error is that of [toISOString], and the series in
    the state is the one from before. *)
Theorem invalid_record_fails_load (api : Api) now s hours records :
  parseInt (timeRange s) = Some hours ->
  api (queryFor hours now) = Ok records ->
  Exists (fun r => QuotaConsumption.consumed_at r = None) records ->
  error (loadData LocalTZA api now s).1 = Some "Invalid time value" /\
  data (loadData LocalTZA api now s).1 = data s /\
  (loadData LocalTZA api now s).2 = [queryFor hours now].
Proof.
  intros Hp Hapi Hbad.
  rewrite (loadData_hours LocalTZA api now s hours Hp). cbn [fst snd].
  rewrite Hapi. simpl. unfold aggregate.
  rewrite (forEach_throws LocalTZA records Hbad ∅). done.
Qed.


(** X5: The series of a shorter range is the tail of the series of a longer one:
    dropping the first [h1] points of the series over [h1 + h2] hours leaves
    the series over [h2] hours. *)
Theorem aggregate_shorter_range h1 h2 now (records : list QuotaConsumption.t) pts :
  0 <= h1 -> 0 <= h2 ->
  aggregate LocalTZA (h1 + h2) now records = Ok pts ->
  aggregate LocalTZA h2 now records = Ok (drop (Z.to_nat h1) pts).
Proof.
  intros H1 H2 (m & Hm & ->)%aggregate_Ok.
  unfold aggregate. rewrite Hm. simpl. f_equal.
  unfold chartData. rewrite (seqZ_app 0 h1 h2 H1 H2), fmap_app.
  rewrite drop_app_length' by (by rewrite length_fmap, length_seqZ).
  replace (0 + h1) with (h1 + 0) by lia.
  rewrite <- (fmap_add_seqZ h1 0 h2), <- list_fmap_compose.
  apply list_fmap_ext. intros _ j _. simpl. unfold chartPoint.
  by replace (h1 + h2 - (h1 + j)) with (h2 - j) by lia.
Qed.



(** X8: The bucket starts and the counts do not depend on the order in which the
    records were fetched. *)
Theorem counts_any_order hours now (records records' : list QuotaConsumption.t) :
  records ≡ₚ records' ->
  Forall validDate records ->
  exists pts pts',
    aggregate LocalTZA hours now records = Ok pts /\
    aggregate LocalTZA hours now records' = Ok pts' /\
    counts pts = counts pts'.
Proof.
  intros Hperm Hvalid.
  assert (Hvalid' : Forall validDate records') by by rewrite <- Hperm.
  destruct (aggregate_valid LocalTZA hours now records Hvalid) as (m & Hm & Hagg).
  destruct (aggregate_valid LocalTZA hours now records' Hvalid')
    as (m' & Hm' & Hagg').
  exists (chartData LocalTZA hours now m), (chartData LocalTZA hours now m').
  split; [exact Hagg |]. split; [exact Hagg' |].
  unfold counts, chartData. rewrite <- !list_fmap_compose.
  apply list_fmap_ext. intros _ i _. unfold compose.
  rewrite (chartPoint_record LocalTZA hours now records m i Hm).
  rewrite (chartPoint_record LocalTZA hours now records' m' i Hm').
  simpl. by rewrite Hperm.
Qed.

(** X9: After the pass over the records, [hourlyData] has an entry under a key
    exactly when a record has that key; the entry counts the records with it,
    at least one, and the key is the start of an hour of the local clock when
    the zone's offset does not change at the records. *)
Theorem hourlyData_entries (records : list QuotaConsumption.t) m k :
  forEach LocalTZA records ∅ = Ok m ->
  (is_Some (m !! k) <-> exists r, r ∈ records /\ hasKey LocalTZA k r) /\
  (forall entry, m !! k = Some entry ->
     (forall tz, steadyRecords LocalTZA tz records -> hourAligned tz k) /\
     Hourly.count entry
       = Z.of_nat (length (filter (hasKey LocalTZA k) records)) /\
     1 <= Hourly.count entry).
Proof.
  intros Hm.
  pose proof (forEach_lookup_None LocalTZA records ∅ m Hm k) as Hnone.
  rewrite lookup_empty in Hnone.
  assert (Hsome : is_Some (m !! k) <->
                  exists r, r ∈ records /\ hasKey LocalTZA k r).
  { rewrite <- not_eq_None_Some, Hnone. split.
    - intros Hne.
      destruct (filter (hasKey LocalTZA k) records) as [|r l] eqn:Hf; [tauto |].
      assert (Hin : r ∈ filter (hasKey LocalTZA k) records)
        by (rewrite Hf; left).
      apply list_elem_of_filter in Hin as [Hk Hr]. by exists r.
    - intros (r & Hr & Hk) [_ Hf].
      by apply (filter_nil_not_elem_of _ _ r Hf Hk). }
  split; [exact Hsome |].
  intros entry Hentry.
  destruct (proj1 Hsome (mk_is_Some _ _ Hentry)) as (r & Hr & Hk).
  destruct (forEach_lookup LocalTZA records ∅ m Hm k) as [_ Hc].
  rewrite Hentry, lookup_empty in Hc. simpl in Hc.
  split; [| split; [exact Hc |]].
  - intros tz Hsteady. unfold hasKey in Hk.
    destruct (QuotaConsumption.consumed_at r) as [t |] eqn:Ht; [| done].
    injection Hk as <-.
    unfold steadyRecords in Hsteady. rewrite Forall_forall in Hsteady.
    rewrite (localHourStart_steady LocalTZA tz t (Hsteady r Hr t Ht)).
    apply hourFloor_aligned.
  - rewrite Hc.
    assert (r ∈ filter (hasKey LocalTZA k) records) as Hin
      by (by apply list_elem_of_filter).
    destruct (filter (hasKey LocalTZA k) records);
      [by apply elem_of_nil in Hin |].
    simpl. lia.
Qed.


End Series.


(** A state left by a failed load: not loading, an error stored. *)
Definition failedState : State :=
  setError (Some "Network Error") (setIsLoading false initialState).

Lemma render_after_success_witness :
  parseInt (timeRange failedState) = Some 24 /\
  sampleApi (queryFor 24 sampleNow) = Ok sampleRecords /\
  Forall validDate sampleRecords /\
  exists pts,
    aggregate utc 24 sampleNow sampleRecords = Ok pts /\
    length pts = Z.to_nat 24 /\
    error (loadData utc sampleApi sampleNow failedState).1 = None /\
    render (loadData utc sampleApi sampleNow failedState).1 = ChartCard "24" pts.
Proof.
  split; [reflexivity |]. split; [reflexivity |].
  split; [exact sampleRecords_valid |].
  apply (render_after_success utc sampleApi sampleNow failedState 24 sampleRecords);
    [reflexivity | reflexivity | exact sampleRecords_valid].
Defined.

Lemma render_after_failure_witness :
  parseInt (timeRange initialState) = Some 24 /\
  failingApi (queryFor 24 sampleNow) = Throw (ErrorObject "Network Error") /\
  render (loadData utc failingApi sampleNow initialState).1
    = ErrorCard "Network Error".
Proof.
  split; [reflexivity |]. split; [reflexivity |].
  apply (render_after_failure utc failingApi sampleNow initialState 24
           (ErrorObject "Network Error")); reflexivity.
Defined.

(** An Error with an empty message: the chart is rendered, here with the
    series of the earlier load. *)
Example render_empty_message :
  let loaded := (loadData utc sampleApi sampleNow initialState).1 in
  render (loadData utc (fun _ => Throw (ErrorObject EmptyString)) sampleNow loaded).1
  = ChartCard "24" (data loaded).
Proof. vm_compute. reflexivity. Qed.

Definition brokenRecords : list QuotaConsumption.t :=
  [ consumption 1767220000000 "0.5";
    {| QuotaConsumption.consumed_at := None;
       QuotaConsumption.quota_consumed := "1" |} ].

Lemma invalid_record_fails_load_witness :
  parseInt (timeRange initialState) = Some 24 /\
  (fun _ => Ok brokenRecords) (queryFor 24 sampleNow) = Ok brokenRecords /\
  Exists (fun r => QuotaConsumption.consumed_at r = None) brokenRecords /\
  error (loadData utc (fun _ => Ok brokenRecords) sampleNow initialState).1
    = Some "Invalid time value" /\
  data (loadData utc (fun _ => Ok brokenRecords) sampleNow initialState).1
    = data initialState /\
  (loadData utc (fun _ => Ok brokenRecords) sampleNow initialState).2
    = [queryFor 24 sampleNow].
Proof.
  assert (Hbad : Exists (fun r => QuotaConsumption.consumed_at r = None)
                        brokenRecords)
    by (right; left; reflexivity).
  split; [reflexivity |]. split; [reflexivity |]. split; [exact Hbad |].
  apply (invalid_record_fails_load utc (fun _ => Ok brokenRecords) sampleNow
           initialState 24 brokenRecords); [reflexivity | reflexivity | exact Hbad].
Defined.


(** At the end of daylight saving time in New York, 05:30Z and 06:30Z read
    01:30 on the local clock and have the same hour start, but the series of
    the last hour differ: the second has the record of 05:45Z, the first has
    none. *)
Example fall_back_same_key :
  localHourStart newYork 1762061400000 = localHourStart newYork 1762065000000 /\
  aggregate newYork 1 1762061400000 fallBackRecords
    = Ok [ {| TrendDataPoint.time := 1762056000000;
              TrendDataPoint.quota_consumed := 0;
              TrendDataPoint.count := 0 |} ] /\
  aggregate newYork 1 1762065000000 fallBackRecords = Ok [ repeatedPoint ].
Proof. vm_compute. repeat split; reflexivity. Qed.

Lemma aggregate_shorter_range_witness :
  0 <= 1 /\ 0 <= 2 /\
  aggregate utc (1 + 2) sampleNow sampleRecords = Ok samplePoints /\
  aggregate utc 2 sampleNow sampleRecords = Ok (drop (Z.to_nat 1) samplePoints).
Proof.
  split; [lia |]. split; [lia |]. split; [vm_compute; reflexivity |].
  apply (aggregate_shorter_range utc 1 2 sampleNow sampleRecords samplePoints);
    [lia | lia | vm_compute; reflexivity].
Defined.


(** Of seven records, one of the current hour and three of hours before the
    span, three are counted. *)
Example counts_add_up_current_hour :
  match aggregate utc 3 sampleNow
          (consumption 1767227000000 "4" :: tenHourRecords ++ sampleRecords) with
  | Ok pts => totalCount pts
  | Throw _ => -1
  end = 3.
Proof. vm_compute. reflexivity. Qed.

(** Across the end of daylight saving time the counts do not add up to the
    records of the span: the two records of the repeated hour are counted at
    both points that carry its key. *)
Example fall_back_counts_twice :
  match aggregate newYork 2 1762068600000 fallBackRecords with
  | Ok pts => totalCount pts
  | Throw _ => -1
  end = 4 /\
  length fallBackRecords = 2%nat.
Proof. vm_compute. split; reflexivity. Qed.


Definition swappedRecords : list QuotaConsumption.t :=
  [ consumption 1767224400000 "1.25";
    consumption 1767220000000 "0.5";
    consumption 1767220000000 "2" ].

Lemma counts_any_order_witness :
  sampleRecords ≡ₚ swappedRecords /\
  Forall validDate sampleRecords /\
  exists pts pts',
    aggregate utc 3 sampleNow sampleRecords = Ok pts /\
    aggregate utc 3 sampleNow swappedRecords = Ok pts' /\
    counts pts = counts pts'.
Proof.
  assert (Hperm : sampleRecords ≡ₚ swappedRecords) by apply perm_swap.
  split; [exact Hperm |]. split; [exact sampleRecords_valid |].
  apply (counts_any_order utc 3 sampleNow sampleRecords swappedRecords Hperm).
  exact sampleRecords_valid.
Defined.

(** The sums, unlike the counts, can depend on the order: 0.1, 0.2 and 0.3
    add up to 0.6000000000000001, and to 0.6 when taken from the last. *)
Example quotaSum_order :
  quotaSum [ consumption 0 "0.1"; consumption 0 "0.2"; consumption 0 "0.3" ]
  <> quotaSum [ consumption 0 "0.3"; consumption 0 "0.2"; consumption 0 "0.1" ].
Proof.
  intros H. apply (f_equal Prim2SF) in H. vm_compute in H. discriminate H.
Qed.

(** The map the pass over [sampleRecords] builds. *)
Definition sampleHourly : gmap Z Hourly.t :=
  <[1767222000000 := {| Hourly.quota := 1.25%float; Hourly.count := 1 |}]>
    (<[1767218400000 := {| Hourly.quota := 2.5%float; Hourly.count := 2 |}]> ∅).

Lemma hourlyData_entries_witness :
  forEach utc sampleRecords ∅ = Ok sampleHourly /\
  (is_Some (sampleHourly !! 1767218400000) <->
   exists r, r ∈ sampleRecords /\ hasKey utc 1767218400000 r) /\
  (forall entry, sampleHourly !! 1767218400000 = Some entry ->
     (forall tz, steadyRecords utc tz sampleRecords ->
                 hourAligned tz 1767218400000) /\
     Hourly.count entry
       = Z.of_nat (length (filter (hasKey utc 1767218400000) sampleRecords)) /\
     1 <= Hourly.count entry).
Proof.
  split; [vm_compute; reflexivity |].
  apply (hourlyData_entries utc sampleRecords sampleHourly 1767218400000).
  vm_compute. reflexivity.
Defined.




End QuotaTrendChart.

(** ** The plugin's Docker entry point *)
Module Entrypoint.

(** What a path of the container's file system holds. *)
Inductive node : Type :=
  | File (content : string)
  | Directory.

(** The double quote and the line feed. *)
Definition dq : string := String "034" EmptyString.
Definition nl : string := String "010" EmptyString.

Definition quoted (s : string) : string := dq +:+ s +:+ dq.

(** A string literal cannot hold a double quote: the texts below are written
    with an apostrophe for each double quote, and [dquotes] puts the double
    quotes back. *)
Fixpoint dquotes (s : string) : string :=
  match s with
  | EmptyString => EmptyString
  | String c rest =>
      String (if Ascii.eqb c "'" then "034"%char else c) (dquotes rest)
  end.

Definition CONFIG_FILE : string := "/app/config.json".

(** [${name:-word}]: the value of the variable when it is set and not empty,
    otherwise [word]. *)
Definition param (env : gmap string string) (name word : string) : string :=
  match env !! name with
  | Some value => if decide (value = EmptyString) then word else value
  | None => word
  end.

(** The here-document, as a function of the expanded parameters. *)
Definition template
    (port db_host db_port db_name db_user db_password
     redis_host redis_port redis_password callback_url admin_api_key : string)
  : string :=
  String.concat nl
    [ "{";
      "  " +:+ quoted "server" +:+ ": {";
      "    " +:+ quoted "port" +:+ ": " +:+ quoted port +:+ ",";
      "    " +:+ quoted "host" +:+ ": " +:+ quoted "0.0.0.0";
      "  },";
      "  " +:+ quoted "database" +:+ ": {";
      "    " +:+ quoted "host" +:+ ": " +:+ quoted db_host +:+ ",";
      "    " +:+ quoted "port" +:+ ": " +:+ db_port +:+ ",";
      "    " +:+ quoted "database" +:+ ": " +:+ quoted db_name +:+ ",";
      "    " +:+ quoted "user" +:+ ": " +:+ quoted db_user +:+ ",";
      "    " +:+ quoted "password" +:+ ": " +:+ quoted db_password +:+ ",";
      "    " +:+ quoted "max" +:+ ": 20,";
      "    " +:+ quoted "idleTimeoutMillis" +:+ ": 30000,";
      "    " +:+ quoted "connectionTimeoutMillis" +:+ ": 2000";
      "  },";
      "  " +:+ quoted "redis" +:+ ": {";
      "    " +:+ quoted "host" +:+ ": " +:+ quoted redis_host +:+ ",";
      "    " +:+ quoted "port" +:+ ": " +:+ redis_port +:+ ",";
      "    " +:+ quoted "password" +:+ ": " +:+ quoted redis_password +:+ ",";
      "    " +:+ quoted "db" +:+ ": 0";
      "  },";
      "  " +:+ quoted "oauth" +:+ ": {";
      "    " +:+ quoted "callbackUrl" +:+ ": " +:+ quoted callback_url;
      "  },";
      "  " +:+ quoted "security" +:+ ": {";
      "    " +:+ quoted "maxRequestSize" +:+ ": " +:+ quoted "50mb" +:+ ",";
      "    " +:+ quoted "adminApiKey" +:+ ": " +:+ quoted admin_api_key;
      "  },";
      "  " +:+ quoted "systemInstruction" +:+ ": " +:+ quoted EmptyString;
      "}";
      EmptyString ].

(** The text [cat > "$CONFIG_FILE" << EOF ... EOF] writes. *)
Definition config (env : gmap string string) : string :=
  template
    (param env "PORT" "8045")
    (param env "DB_HOST" "localhost")
    (param env "DB_PORT" "5432")
    (param env "DB_NAME" "antigv")
    (param env "DB_USER" "postgres")
    (param env "DB_PASSWORD" "postgres")
    (param env "REDIS_HOST" "localhost")
    (param env "REDIS_PORT" "6379")
    (param env "REDIS_PASSWORD" EmptyString)
    (param env "OAUTH_CALLBACK_URL" "http://localhost:8045/api/oauth/callback")
    (param env "ADMIN_API_KEY" "sk-admin-default-key").

(** The variables the here-document expands. *)
Definition configVariables : list string :=
  [ "PORT"; "DB_HOST"; "DB_PORT"; "DB_NAME"; "DB_USER"; "DB_PASSWORD";
    "REDIS_HOST"; "REDIS_PORT"; "REDIS_PASSWORD"; "OAUTH_CALLBACK_URL";
    "ADMIN_API_KEY" ].

(** The configuration written when none of them is set. *)
Definition defaultConfig : string :=
  template "8045" "localhost" "5432" "antigv" "postgres" "postgres"
           "localhost" "6379" EmptyString
           "http://localhost:8045/api/oauth/callback" "sk-admin-default-key".

(** The script up to the start of the server: the file system it leaves and
    the lines it prints.  [[ -f ]] holds for a regular file only; a
    redirection onto a directory fails and writes nothing, and the script,
    which does not stop on errors, goes on; the directory [/app] of an absent
    [CONFIG_FILE] exists and is writable. *)
Definition entrypoint (env : gmap string string) (fs : gmap string node)
  : gmap string node * list string :=
  let '(fs, out) :=
    match fs !! CONFIG_FILE with
    | Some (File _) =>
        (fs, ["使用已存在的配置文件: " +:+ CONFIG_FILE])
    | Some Directory =>
        (fs, ["从环境变量生成配置文件..."; "配置文件已生成: " +:+ CONFIG_FILE])
    | None =>
        (<[CONFIG_FILE := File (config env)]> fs,
         ["从环境变量生成配置文件..."; "配置文件已生成: " +:+ CONFIG_FILE;
          config env])
    end in
  (fs, out ++ [EmptyString; "启动 AntiHub API 服务...";
               "================================"]).

Lemma param_unset env name word :
  env !! name = None -> param env name word = word.
Proof. intros H. unfold param. by rewrite H. Qed.

Lemma param_set env name word value :
  env !! name = Some value -> value <> EmptyString ->
  param env name word = value.
Proof. intros H Hne. unfold param. rewrite H. by destruct (decide _). Qed.

Lemma config_unset env :
  (forall name, name ∈ configVariables -> env !! name = None) ->
  config env = defaultConfig.
Proof.
  intros Hunset. unfold config, defaultConfig.
  rewrite !param_unset; [reflexivity | | | | | | | | | | |];
    apply Hunset; unfold configVariables; set_solver.
Qed.

Lemma append_assoc (s1 s2 s3 : string) :
  (s1 +:+ s2) +:+ s3 = s1 +:+ (s2 +:+ s3).
Proof.
  induction s1 as [| c s1 IH]; [done |].
  change (String c ((s1 +:+ s2) +:+ s3) = String c (s1 +:+ (s2 +:+ s3))).
  by f_equal.
Qed.

Lemma param_cases env name word :
  param env name word =
  match env !! name with
  | Some (String c rest) => String c rest
  | Some EmptyString | None => word
  end.
Proof. unfold param. destruct (env !! name) as [[| c rest] |]; done. Qed.

(** The here-document, character by character. *)
Lemma template_text
    (port db_host db_port db_name db_user db_password
     redis_host redis_port redis_password callback_url admin_api_key : string) :
  template port db_host db_port db_name db_user db_password
           redis_host redis_port redis_password callback_url admin_api_key =
  dquotes "{
  'server': {
    'port': '" +:+ port +:+ dquotes "',
    'host': '0.0.0.0'
  },
  'database': {
    'host': '" +:+ db_host +:+ dquotes "',
    'port': " +:+ db_port +:+ dquotes ",
    'database': '" +:+ db_name +:+ dquotes "',
    'user': '" +:+ db_user +:+ dquotes "',
    'password': '" +:+ db_password +:+ dquotes "',
    'max': 20,
    'idleTimeoutMillis': 30000,
    'connectionTimeoutMillis': 2000
  },
  'redis': {
    'host': '" +:+ redis_host +:+ dquotes "',
    'port': " +:+ redis_port +:+ dquotes ",
    'password': '" +:+ redis_password +:+ dquotes "',
    'db': 0
  },
  'oauth': {
    'callbackUrl': '" +:+ callback_url +:+ dquotes "'
  },
  'security': {
    'maxRequestSize': '50mb',
    'adminApiKey': '" +:+ admin_api_key +:+ dquotes "'
  },
  'systemInstruction': ''
}
".
Proof.
  unfold template, quoted, dq, nl. cbn [String.concat].
  rewrite !append_assoc. reflexivity.
Qed.

(** C8: when [/app/config.json] is already a file the entry point leaves the
    whole file system, so that file too, as it is, whatever the environment;
    when the path is absent it writes the text of the here-document there,
    each parameter replaced by the value of its variable or, for a variable
    that is not set (or set to the empty string), by its fixed default, and
    touches no other path; with none of the variables set the text is the
    default configuration, with port 8045, database antigv, redis port 6379
    and admin key sk-admin-default-key. *)
Theorem entrypoint_config env (fs : gmap string node) :
  (forall content,
     fs !! CONFIG_FILE = Some (File content) ->
     (entrypoint env fs).1 = fs /\
     (entrypoint env fs).1 !! CONFIG_FILE = Some (File content)) /\
  (fs !! CONFIG_FILE = None ->
     (entrypoint env fs).1 !! CONFIG_FILE = Some (File (config env)) /\
     config env =
       dquotes "{
  'server': {
    'port': '" +:+ param env "PORT" "8045" +:+ dquotes "',
    'host': '0.0.0.0'
  },
  'database': {
    'host': '" +:+ param env "DB_HOST" "localhost" +:+ dquotes "',
    'port': " +:+ param env "DB_PORT" "5432" +:+ dquotes ",
    'database': '" +:+ param env "DB_NAME" "antigv" +:+ dquotes "',
    'user': '" +:+ param env "DB_USER" "postgres" +:+ dquotes "',
    'password': '" +:+ param env "DB_PASSWORD" "postgres" +:+ dquotes "',
    'max': 20,
    'idleTimeoutMillis': 30000,
    'connectionTimeoutMillis': 2000
  },
  'redis': {
    'host': '" +:+ param env "REDIS_HOST" "localhost" +:+ dquotes "',
    'port': " +:+ param env "REDIS_PORT" "6379" +:+ dquotes ",
    'password': '" +:+ param env "REDIS_PASSWORD" EmptyString +:+ dquotes "',
    'db': 0
  },
  'oauth': {
    'callbackUrl': '"
       +:+ param env "OAUTH_CALLBACK_URL"
             "http://localhost:8045/api/oauth/callback" +:+ dquotes "'
  },
  'security': {
    'maxRequestSize': '50mb',
    'adminApiKey': '"
       +:+ param env "ADMIN_API_KEY" "sk-admin-default-key" +:+ dquotes "'
  },
  'systemInstruction': ''
}
" /\
     forall path, path <> CONFIG_FILE ->
       (entrypoint env fs).1 !! path = fs !! path) /\
  (forall name word,
     param env name word =
     match env !! name with
     | Some (String c rest) => String c rest
     | Some EmptyString | None => word
     end) /\
  ((forall name, name ∈ configVariables -> env !! name = None) ->
     config env =
     template "8045" "localhost" "5432" "antigv" "postgres" "postgres"
              "localhost" "6379" EmptyString
              "http://localhost:8045/api/oauth/callback"
              "sk-admin-default-key" /\
     config env =
       dquotes "{
  'server': {
    'port': '8045',
    'host': '0.0.0.0'
  },
  'database': {
    'host': 'localhost',
    'port': 5432,
    'database': 'antigv',
    'user': 'postgres',
    'password': 'postgres',
    'max': 20,
    'idleTimeoutMillis': 30000,
    'connectionTimeoutMillis': 2000
  },
  'redis': {
    'host': 'localhost',
    'port': 6379,
    'password': '',
    'db': 0
  },
  'oauth': {
    'callbackUrl': 'http://localhost:8045/api/oauth/callback'
  },
  'security': {
    'maxRequestSize': '50mb',
    'adminApiKey': 'sk-admin-default-key'
  },
  'systemInstruction': ''
}
").
Proof.
  split; [| split; [| split]].
  - intros content Hfile. unfold entrypoint. rewrite Hfile. by simpl.
  - intros Habsent. unfold entrypoint. rewrite Habsent. simpl.
    split; [apply lookup_insert_eq |]. split.
    + unfold config. apply template_text.
    + intros path Hne. by rewrite lookup_insert_ne.
  - apply param_cases.
  - intros Hunset. rewrite (config_unset env Hunset).
    split; [reflexivity |]. vm_compute. reflexivity.
Qed.

Definition customConfig : string := "{ custom }".

Lemma entrypoint_config_witness :
  let env : gmap string string := {[ "PORT" := "9000" ]} in
  let mounted : gmap string node := {[ CONFIG_FILE := File customConfig ]} in
  (mounted !! CONFIG_FILE = Some (File customConfig) /\
   (entrypoint env mounted).1 = mounted /\
   (entrypoint env mounted).1 !! CONFIG_FILE = Some (File customConfig)) /\
  ((∅ : gmap string node) !! CONFIG_FILE = None /\
   (entrypoint env ∅).1 !! CONFIG_FILE = Some (File (config env)) /\
   forall path, path <> CONFIG_FILE ->
     (entrypoint env ∅).1 !! path = (∅ : gmap string node) !! path) /\
  (env !! "DB_NAME" = None /\ param env "DB_NAME" "antigv" = "antigv") /\
  ((forall name, name ∈ configVariables ->
      (∅ : gmap string string) !! name = None) /\
   config ∅ = defaultConfig).
Proof.
  intros env mounted.
  split; [| split; [| split]].
  - split; [reflexivity |].
    apply (proj1 (entrypoint_config env mounted) customConfig). reflexivity.
  - split; [reflexivity |].
    destruct (proj1 (proj2 (entrypoint_config env ∅))) as (Hfile & _ & Hframe);
      [reflexivity |].
    split; [exact Hfile | exact Hframe].
  - split; [reflexivity |].
    apply (proj1 (proj2 (proj2 (entrypoint_config env ∅)))).
  - split; [intros; apply lookup_empty |].
    apply (proj2 (proj2 (proj2 (entrypoint_config ∅ ∅)))).
    intros; apply lookup_empty.
Defined.

(** A mixed environment: the port and the database password are set, the
    database port is set to the empty string, the other variables are not
    set.  The text written has the two values and the defaults of the
    others. *)
Example entrypoint_mixed_environment :
  let env : gmap string string :=
    {[ "PORT" := "9000"; "DB_PASSWORD" := "s3cret"; "DB_PORT" := EmptyString ]} in
  (entrypoint env ∅).1 !! CONFIG_FILE =
  Some (File (dquotes "{
  'server': {
    'port': '9000',
    'host': '0.0.0.0'
  },
  'database': {
    'host': 'localhost',
    'port': 5432,
    'database': 'antigv',
    'user': 'postgres',
    'password': 's3cret',
    'max': 20,
    'idleTimeoutMillis': 30000,
    'connectionTimeoutMillis': 2000
  },
  'redis': {
    'host': 'localhost',
    'port': 6379,
    'password': '',
    'db': 0
  },
  'oauth': {
    'callbackUrl': 'http://localhost:8045/api/oauth/callback'
  },
  'security': {
    'maxRequestSize': '50mb',
    'adminApiKey': 'sk-admin-default-key'
  },
  'systemInstruction': ''
}
")).
Proof. vm_compute. reflexivity. Qed.

(** *** Restarts and the environment *)

(** The value the here-document sees for a variable: set and not empty. *)
Definition setting (env : gmap string string) (name : string) : option string :=
  match env !! name with
  | Some (String c rest) => Some (String c rest)
  | Some EmptyString | None => None
  end.

Lemma param_setting env name word :
  param env name word = default word (setting env name).
Proof.
  unfold param, setting. destruct (env !! name) as [[| c rest] |]; done.
Qed.

(** X12: A second run of the entry point, under any environment, leaves the file
    system of the first run as it is: once written, the configuration is not
    regenerated when the variables change. *)
Theorem entrypoint_restart env1 env2 (fs : gmap string node) :
  (entrypoint env2 (entrypoint env1 fs).1).1 = (entrypoint env1 fs).1.
Proof.
  unfold entrypoint at 2 3.
  destruct (fs !! CONFIG_FILE) as [[content |] |] eqn:Hfs; simpl.
  - unfold entrypoint. by rewrite Hfs.
  - unfold entrypoint. by rewrite Hfs.
  - unfold entrypoint. by rewrite lookup_insert_eq.
Qed.

(** X13: The generated text depends on the environment through the eleven
    variables of the here-document only, and a variable set to the empty
    string counts as not set. *)
Theorem config_variables_only env1 env2 :
  (forall name, name ∈ configVariables -> setting env1 name = setting env2 name) ->
  config env1 = config env2.
Proof.
  intros Hsame. unfold config. rewrite !param_setting.
  rewrite !(Hsame _) by (unfold configVariables; set_solver).
  reflexivity.
Qed.

Lemma config_variables_only_witness :
  let env1 : gmap string string :=
    {[ "PORT" := "9000"; "DB_PORT" := EmptyString; "HOME" := "/root" ]} in
  let env2 : gmap string string := {[ "PORT" := "9000" ]} in
  (forall name, name ∈ configVariables -> setting env1 name = setting env2 name) /\
  config env1 = config env2.
Proof.
  intros env1 env2.
  assert (Hsame : forall name, name ∈ configVariables ->
                    setting env1 name = setting env2 name).
  { intros name Hin. unfold configVariables in Hin.
    repeat (apply elem_of_cons in Hin as [-> | Hin]; [reflexivity |]).
    by apply elem_of_nil in Hin. }
  split; [exact Hsame |].
  apply (config_variables_only env1 env2 Hsame).
Defined.

(** A restart with another port keeps the file of the first start. *)
Example entrypoint_restart_port :
  let first := (entrypoint {[ "PORT" := "9000" ]} ∅).1 in
  (entrypoint {[ "PORT" := "9100" ]} first).1 !! CONFIG_FILE
  = Some (File (config {[ "PORT" := "9000" ]})).
Proof. reflexivity. Qed.

End Entrypoint.

(** ** The Postgres init script

    The script is one of the image's [docker-entrypoint-initdb.d] scripts:
    it runs in the init phase of a new cluster, where [POSTGRES_USER] is the
    bootstrap superuser the cluster was created with.  The statement is
    therefore sent by a role that may create databases, and the privilege
    check of [CREATE DATABASE] is not part of the model. *)
Module InitDb.

(** A row of the catalog [pg_database]: the database and its owner. *)
Record pg_database : Type := { datname : string; owner : string }.

(** A statement the script can send through [\gexec]. *)
Inductive statement : Type :=
  | CreateDatabase (name database_owner : string).

Definition hasDatabase (name : string) (catalog : list pg_database) : bool :=
  bool_decide (name ∈ datname <$> catalog).

(** [SELECT format('CREATE DATABASE %I OWNER %I', 'antigravity', :'owner')
     WHERE NOT EXISTS (SELECT FROM pg_database WHERE datname = 'antigravity')]:
    one row holding the statement, or no row. *)
Definition select_statement (catalog : list pg_database) (POSTGRES_USER : string)
  : list statement :=
  if hasDatabase "antigravity" catalog then []
  else [CreateDatabase "antigravity" POSTGRES_USER].

(** The server runs one statement of the superuser; creating a database
    whose name is taken is an error and leaves the catalog as it is. *)
Definition execute (catalog : list pg_database) (st : statement)
  : option (list pg_database) :=
  match st with
  | CreateDatabase name database_owner =>
      if hasDatabase name catalog then None
      else Some (catalog ++ [{| datname := name; owner := database_owner |}])
  end.

(** [\gexec] sends each returned row as a statement; with [ON_ERROR_STOP=1]
    the first error ends the script, modelled by [None]. *)
Fixpoint gexec (catalog : list pg_database) (rows : list statement)
  : option (list pg_database) :=
  match rows with
  | [] => Some catalog
  | st :: rest => catalog ← execute catalog st; gexec catalog rest
  end.

(** One run of the script. *)
Definition init (POSTGRES_USER : string) (catalog : list pg_database)
  : option (list pg_database) :=
  gexec catalog (select_statement catalog POSTGRES_USER).

(** [n] runs in a row. *)
Fixpoint runs (n : nat) (POSTGRES_USER : string) (catalog : list pg_database)
  : option (list pg_database) :=
  match n with
  | O => Some catalog
  | S k => catalog ← init POSTGRES_USER catalog; runs k POSTGRES_USER catalog
  end.

(** The number of databases of a name. *)
Definition databases (name : string) (catalog : list pg_database) : nat :=
  length (filter (fun row => datname row = name) catalog).

(** The catalog after one run. *)
Definition initialized (POSTGRES_USER : string) (catalog : list pg_database)
  : list pg_database :=
  if hasDatabase "antigravity" catalog then catalog
  else catalog ++ [{| datname := "antigravity"; owner := POSTGRES_USER |}].

Lemma init_initialized user catalog :
  init user catalog = Some (initialized user catalog).
Proof.
  unfold init, initialized, select_statement.
  destruct (hasDatabase "antigravity" catalog) eqn:Hhas; simpl; [done |].
  by rewrite Hhas.
Qed.

Lemma hasDatabase_initialized user catalog :
  hasDatabase "antigravity" (initialized user catalog) = true.
Proof.
  unfold initialized.
  destruct (hasDatabase "antigravity" catalog) eqn:Hhas; [done |].
  unfold hasDatabase. apply bool_decide_eq_true.
  rewrite fmap_app. apply elem_of_app. right. simpl. left.
Qed.

Lemma init_again user catalog :
  hasDatabase "antigravity" catalog = true -> init user catalog = Some catalog.
Proof. intros Hhas. unfold init, select_statement. by rewrite Hhas. Qed.

Lemma runs_again user catalog n :
  hasDatabase "antigravity" catalog = true -> runs n user catalog = Some catalog.
Proof.
  intros Hhas. induction n as [|n IH]; [done |].
  simpl. by rewrite (init_again _ _ Hhas).
Qed.

Lemma databases_absent name catalog :
  name ∉ datname <$> catalog -> databases name catalog = 0%nat.
Proof.
  intros Hno. unfold databases.
  rewrite filter_none; [done |].
  intros row Hrow <-. apply Hno. by apply list_elem_of_fmap_2.
Qed.

Lemma databases_unique name catalog :
  NoDup (datname <$> catalog) -> name ∈ datname <$> catalog ->
  databases name catalog = 1%nat.
Proof.
  unfold databases. induction catalog as [|row catalog IH]; simpl.
  - intros _ Hin. by apply elem_of_nil in Hin.
  - intros [Hfresh Hnd]%NoDup_cons Hin.
    destruct (decide (datname row = name)) as [<- | Hne].
    + rewrite filter_cons_True by done. simpl. f_equal.
      by apply databases_absent.
    + rewrite filter_cons_False by done. apply IH; [done |].
      apply elem_of_cons in Hin as [-> | Hin]; done.
Qed.

Lemma databases_initialized user catalog :
  NoDup (datname <$> catalog) ->
  databases "antigravity" (initialized user catalog) = 1%nat.
Proof.
  intros Hnd. unfold initialized.
  destruct (hasDatabase "antigravity" catalog) eqn:Hhas.
  - apply databases_unique; [done |]. by apply bool_decide_eq_true in Hhas.
  - apply bool_decide_eq_false in Hhas.
    unfold databases. rewrite filter_app, length_app.
    fold (databases "antigravity" catalog).
    by rewrite databases_absent.
Qed.

(** C9: the script creates [antigravity] only when the catalog has no
    database of that name and leaves the catalog alone otherwise; from a
    catalog with distinct names, any number [n >= 1] of runs succeeds and ends
    in the catalog of a single run, which holds exactly one [antigravity]
    database and which a further run does not change. *)
Theorem init_idempotent user (catalog : list pg_database) n :
  NoDup (datname <$> catalog) ->
  (1 <= n)%nat ->
  runs n user catalog = Some (initialized user catalog) /\
  init user catalog =
    Some (if bool_decide ("antigravity" ∈ datname <$> catalog)
          then catalog
          else catalog ++ [{| datname := "antigravity"; owner := user |}]) /\
  databases "antigravity" (initialized user catalog) = 1%nat /\
  init user (initialized user catalog) = Some (initialized user catalog).
Proof.
  intros Hnd Hn. split; [| split; [| split]].
  - destruct n as [|n]; [lia |]. simpl. rewrite init_initialized. simpl.
    apply runs_again, hasDatabase_initialized.
  - apply init_initialized.
  - by apply databases_initialized.
  - apply init_again, hasDatabase_initialized.
Qed.

(** A fresh cluster: the default database and the one of [POSTGRES_DB]. *)
Definition freshCluster : list pg_database :=
  [ {| datname := "postgres"; owner := "antihub" |};
    {| datname := "antihub"; owner := "antihub" |} ].

Lemma init_idempotent_witness :
  NoDup (datname <$> freshCluster) /\
  (1 <= 3)%nat /\
  runs 3 "antihub" freshCluster = Some (initialized "antihub" freshCluster) /\
  init "antihub" freshCluster =
    Some (if bool_decide ("antigravity" ∈ datname <$> freshCluster)
          then freshCluster
          else freshCluster
               ++ [{| datname := "antigravity"; owner := "antihub" |}]) /\
  databases "antigravity" (initialized "antihub" freshCluster) = 1%nat /\
  init "antihub" (initialized "antihub" freshCluster)
    = Some (initialized "antihub" freshCluster).
Proof.
  assert (Hnd : NoDup (datname <$> freshCluster)) by compute_done.
  split; [exact Hnd |]. split; [lia |].
  apply (init_idempotent "antihub" freshCluster 3 Hnd). lia.
Defined.

Example runs_fresh_cluster :
  runs 3 "antihub" freshCluster =
  Some (freshCluster ++ [{| datname := "antigravity"; owner := "antihub" |}]).
Proof. reflexivity. Qed.

(** *** Existing databases *)

(** X14: Runs that end without an error keep every row the catalog had, in
    place and with its owner, and add at most one row after them. *)
Theorem runs_keep_catalog n user (catalog catalog' : list pg_database) :
  runs n user catalog = Some catalog' ->
  catalog `prefix_of` catalog' /\
  (length catalog' <= S (length catalog))%nat.
Proof.
  intros Hruns.
  assert (Hcases : catalog' = catalog \/ catalog' = initialized user catalog).
  { destruct n as [|n]; simpl in Hruns; [left; congruence |].
    rewrite init_initialized in Hruns. simpl in Hruns.
    rewrite (runs_again _ _ _ (hasDatabase_initialized user catalog)) in Hruns.
    right. congruence. }
  destruct Hcases as [-> | ->]; [split; [done | lia] |].
  unfold initialized. destruct (hasDatabase "antigravity" catalog).
  - split; [done | lia].
  - split; [by apply prefix_app_r |]. rewrite length_app. simpl. lia.
Qed.

Lemma runs_keep_catalog_witness :
  runs 3 "antihub" freshCluster
    = Some (freshCluster ++ [{| datname := "antigravity"; owner := "antihub" |}]) /\
  freshCluster `prefix_of`
    (freshCluster ++ [{| datname := "antigravity"; owner := "antihub" |}]) /\
  (length (freshCluster ++ [{| datname := "antigravity"; owner := "antihub" |}])
   <= S (length freshCluster))%nat.
Proof.
  split; [reflexivity |].
  apply (runs_keep_catalog 3 "antihub" freshCluster
           (freshCluster ++ [{| datname := "antigravity"; owner := "antihub" |}])).
  reflexivity.
Defined.

(** X15: When the catalog has no [antigravity] database, the runs create it owned
    by the user of the first run; later runs as another user leave that
    owner. *)
Theorem antigravity_owner n k user1 user2 (catalog : list pg_database) :
  ("antigravity" ∉ datname <$> catalog) ->
  (1 <= n)%nat ->
  exists catalog',
    runs n user1 catalog = Some catalog' /\
    runs k user2 catalog' = Some catalog' /\
    filter (fun row => datname row = "antigravity") catalog'
      = [{| datname := "antigravity"; owner := user1 |}].
Proof.
  intros Hno Hn. exists (initialized user1 catalog).
  split; [| split].
  - destruct n as [|n]; [lia |]. simpl. rewrite init_initialized. simpl.
    apply runs_again, hasDatabase_initialized.
  - apply runs_again, hasDatabase_initialized.
  - unfold initialized, hasDatabase. rewrite bool_decide_eq_false_2 by done.
    rewrite filter_app, filter_none.
    + by rewrite filter_cons_True.
    + intros row Hrow Hname. apply Hno. rewrite <- Hname.
      by apply list_elem_of_fmap_2.
Qed.

Lemma antigravity_owner_witness :
  ("antigravity" ∉ datname <$> freshCluster) /\
  (1 <= 2)%nat /\
  exists catalog',
    runs 2 "antihub" freshCluster = Some catalog' /\
    runs 3 "postgres" catalog' = Some catalog' /\
    filter (fun row => datname row = "antigravity") catalog'
      = [{| datname := "antigravity"; owner := "antihub" |}].
Proof.
  assert (Hno : "antigravity" ∉ (datname <$> freshCluster)) by compute_done.
  split; [exact Hno |]. split; [lia |].
  apply (antigravity_owner 2 3 "antihub" "postgres" freshCluster Hno). lia.
Defined.

(** An [antigravity] database of another owner is left to that owner. *)
Example runs_existing_owner :
  runs 2 "antihub" [{| datname := "antigravity"; owner := "dba" |}]
  = Some [{| datname := "antigravity"; owner := "dba" |}].
Proof. reflexivity. Qed.

End InitDb.

(** ** The ledger's admission check *)
Module Ledger.

Inductive failure : Type :=
  | InsufficientQuota
  | PoolUnknown.

Inductive reservation_state : Type :=
  | Pending
  | Committed
  | Released.

(** Amounts are fixed-point numbers, counted in the smallest unit of quota. *)
Record Reservation : Type := {
  reservation_id : nat;
  pool_id : string;
  reserved_amount : Z;
  state : reservation_state
}.

(** The cached remaining-quota counter of each pool and the reservation
    table. *)
Record Ledger : Type := {
  remaining_quota : gmap string Z;
  reservations : list Reservation
}.

(** Modelled from the spec: [CheckAndReserve] of the Ledger Engine, of which
    the sources hold no code.  It reads the pool's remaining quota, verifies
    that it is at least the estimated amount and, in the same atomic step,
    decrements the counter and records a Pending reservation; on insufficient
    quota or an unknown pool it fails without changing the state. *)
Definition CheckAndReserve (pool : string) (estimated_amount : Z) (l : Ledger)
  : (Reservation + failure) * Ledger :=
  match remaining_quota l !! pool with
  | None => (inr PoolUnknown, l)
  | Some remaining =>
      if decide (estimated_amount <= remaining) then
        let reservation :=
          {| reservation_id := length (reservations l);
             pool_id := pool;
             reserved_amount := estimated_amount;
             state := Pending |} in
        (inl reservation,
         {| remaining_quota :=
              <[pool := remaining - estimated_amount]> (remaining_quota l);
            reservations := reservation :: reservations l |})
      else (inr InsufficientQuota, l)
  end.

(** A caller: still to make its call, or back with the result. *)
Inductive caller : Type :=
  | Calling (pool : string) (estimated_amount : Z)
  | Returned (result : Reservation + failure).

(** Two concurrent callers over one ledger.  A step lets either caller that
    has not returned run its [CheckAndReserve], as one atomic action. *)
Inductive step : Ledger * caller * caller -> Ledger * caller * caller -> Prop :=
  | step_first l pool amount other :
      step (l, Calling pool amount, other)
           ((CheckAndReserve pool amount l).2,
            Returned (CheckAndReserve pool amount l).1, other)
  | step_second l pool amount other :
      step (l, other, Calling pool amount)
           ((CheckAndReserve pool amount l).2,
            other, Returned (CheckAndReserve pool amount l).1).

Definition granted (c : caller) : Prop :=
  match c with
  | Returned (inl _) => True
  | _ => False
  end.

Definition refused (c : caller) : Prop :=
  c = Returned (inr InsufficientQuota).

Definition bothReturned (cfg : Ledger * caller * caller) : Prop :=
  match cfg with
  | (_, Returned _, Returned _) => True
  | _ => False
  end.

Lemma CheckAndReserve_granted l pool remaining amount :
  remaining_quota l !! pool = Some remaining -> amount <= remaining ->
  exists reservation l',
    CheckAndReserve pool amount l = (inl reservation, l') /\
    remaining_quota l' !! pool = Some (remaining - amount).
Proof.
  intros Hpool Hle. unfold CheckAndReserve. rewrite Hpool.
  destruct (decide _) as [_ | Hgt]; [| lia].
  eexists _, _. split; [reflexivity |]. simpl. apply lookup_insert_eq.
Qed.

Lemma CheckAndReserve_refused l pool remaining amount :
  remaining_quota l !! pool = Some remaining -> remaining < amount ->
  CheckAndReserve pool amount l = (inr InsufficientQuota, l).
Proof.
  intros Hpool Hlt. unfold CheckAndReserve. rewrite Hpool.
  destruct (decide _) as [Hle | _]; [lia | reflexivity].
Qed.

(** Whichever caller runs first, exactly one of the two is granted. *)
Lemma sequential_outcome l pool remaining a b :
  remaining_quota l !! pool = Some remaining ->
  a <= remaining \/ b <= remaining ->
  remaining < a + b ->
  let first := CheckAndReserve pool a l in
  let second := CheckAndReserve pool b first.2 in
  (granted (Returned first.1) /\ refused (Returned second.1)) \/
  (refused (Returned first.1) /\ granted (Returned second.1)).
Proof.
  intros Hpool Hone Hboth. cbv zeta.
  destruct (decide (a <= remaining)) as [Ha | Ha].
  - destruct (CheckAndReserve_granted l pool remaining a Hpool Ha)
      as (res & l' & -> & Hl').
    left. split; [exact I |]. simpl. unfold refused.
    by rewrite (CheckAndReserve_refused l' pool (remaining - a) b Hl') by lia.
  - rewrite (CheckAndReserve_refused l pool remaining a Hpool) by lia.
    right. split; [reflexivity |]. simpl.
    destruct (CheckAndReserve_granted l pool remaining b Hpool) as
      (res & l' & -> & _); [lia | exact I].
Qed.

(** C7: when the pool's remaining quota is enough for either call alone or
    for one of them, but not for both together, every interleaving of the two
    concurrent calls runs to completion with exactly one caller granted a
    reservation and the other refused with InsufficientQuota. *)
Theorem one_caller_wins l pool remaining a b :
  remaining_quota l !! pool = Some remaining ->
  a <= remaining \/ b <= remaining ->
  remaining < a + b ->
  (exists final,
     rtc step (l, Calling pool a, Calling pool b) final /\ bothReturned final) /\
  forall l' c1 c2,
    rtc step (l, Calling pool a, Calling pool b) (l', c1, c2) ->
    bothReturned (l', c1, c2) ->
    (granted c1 /\ refused c2) \/ (refused c1 /\ granted c2).
Proof.
  intros Hpool Hone Hboth. split.
  - eexists. split.
    + eapply rtc_l; [apply step_first |].
      eapply rtc_l; [apply step_second | apply rtc_refl].
    + exact I.
  - intros l' c1 c2 Hrun Hdone.
    apply rtc_inv in Hrun as [Heq | (mid & Hstep & Hrun)];
      [by injection Heq as <- <- <- |].
    inversion Hstep; subst; clear Hstep.
    + apply rtc_inv in Hrun as [Heq | (mid & Hstep & Hrun)];
        [by injection Heq as <- <- <- |].
      inversion Hstep; subst; clear Hstep.
      apply rtc_inv in Hrun as [Heq | (mid & Hstep & _)];
        [| by inversion Hstep].
      injection Heq as <- <- <-.
      apply (sequential_outcome l pool remaining a b Hpool Hone Hboth).
    + apply rtc_inv in Hrun as [Heq | (mid & Hstep & Hrun)];
        [by injection Heq as <- <- <- |].
      inversion Hstep; subst; clear Hstep.
      apply rtc_inv in Hrun as [Heq | (mid & Hstep & _)];
        [| by inversion Hstep].
      injection Heq as <- <- <-.
      destruct (sequential_outcome l pool remaining b a Hpool) as [H | H];
        [tauto | lia | right; tauto | left; tauto].
Qed.

(** A pool with 10 units left and two concurrent calls for 6 and 7. *)
Definition samplePool : Ledger :=
  {| remaining_quota := {[ "shared" := 10 ]}; reservations := [] |}.

Lemma one_caller_wins_witness :
  remaining_quota samplePool !! "shared" = Some 10 /\
  (6 <= 10 \/ 7 <= 10) /\
  10 < 6 + 7 /\
  (exists final,
     rtc step (samplePool, Calling "shared" 6, Calling "shared" 7) final /\
     bothReturned final) /\
  forall l' c1 c2,
    rtc step (samplePool, Calling "shared" 6, Calling "shared" 7) (l', c1, c2) ->
    bothReturned (l', c1, c2) ->
    (granted c1 /\ refused c2) \/ (refused c1 /\ granted c2).
Proof.
  split; [reflexivity |]. split; [left; lia |]. split; [lia |].
  apply (one_caller_wins samplePool "shared" 10 6 7); [reflexivity | | lia].
  left. lia.
Defined.

(** Run one after the other, the first caller gets the reservation. *)
Example first_caller_granted :
  let first := CheckAndReserve "shared" 6 samplePool in
  let second := CheckAndReserve "shared" 7 first.2 in
  granted (Returned first.1) /\
  second.1 = inr InsufficientQuota /\
  remaining_quota second.2 !! "shared" = Some 4.
Proof. repeat split. Qed.

End Ledger.

